(** * Contact-form worker ([functions/submit.js]): model and properties

    The worker exports one handler, [onRequestPost].  It reads the form data
    of the inbound request, checks that the four fields are present, builds
    the JSON payload for the forwardemail.net API, sends it with [fetch] and
    maps the outcome to a [Response].

    Conventions of the model:
    - a JavaScript string is the Rocq [string] of its UTF-8 bytes (form data
      values are scalar-value strings, so the encoding is well defined);
    - [undefined] is [None];
    - an [await]ed platform call is a step of the monad [M], which threads
      the console and the list of outbound calls and may raise a [JsError];
    - a [Response] is its body, its status and its header list, as the
      constructor builds them: [new Response(body, init)] with a string body
      adds the content type of the body when [init] names none. *)

From Stdlib Require Import String Ascii NArith DecimalString Bool.
From stdpp Require Import base option list gmap strings fin_maps.

Local Open Scope string_scope.
Local Open Scope N_scope.

(** ** Characters and literals that cannot be typed inside a string *)

Definition chr (n : N) : ascii := ascii_of_N n.
Definition str1 (n : N) : string := String (chr n) EmptyString.

Definition LF : string := str1 10.
Definition DQ : string := str1 34.
Definition BSL : string := str1 92.

(** ** JSON.stringify *)

Module JSON.

#[warnings="-register-all"] Inductive value : Type :=
| Bool (b : bool)
| Str (s : string)
| Arr (items : list value)
| Obj (props : list (string * value)).

Definition hex (n : N) : ascii :=
  if n <? 10 then chr (48 + n) else chr (87 + n).

(** QuoteJSONString, one code unit at a time. *)
Definition escape (c : ascii) : string :=
  let n := N_of_ascii c in
  if n =? 8 then BSL +:+ "b"
  else if n =? 9 then BSL +:+ "t"
  else if n =? 10 then BSL +:+ "n"
  else if n =? 12 then BSL +:+ "f"
  else if n =? 13 then BSL +:+ "r"
  else if n =? 34 then BSL +:+ DQ
  else if n =? 92 then BSL +:+ BSL
  else if n <? 32 then
    BSL +:+ "u00" +:+ String (hex (n / 16)) (String (hex (n mod 16)) EmptyString)
  else String c EmptyString.

Fixpoint escape_all (s : string) : string :=
  match s with
  | EmptyString => EmptyString
  | String c s' => escape c +:+ escape_all s'
  end.

Definition quote (s : string) : string := DQ +:+ escape_all s +:+ DQ.

Fixpoint stringify (v : value) : string :=
  match v with
  | Bool true => "true"
  | Bool false => "false"
  | Str s => quote s
  | Arr items =>
      "[" +:+
      (fix elems (l : list value) : string :=
         match l with
         | [] => EmptyString
         | [x] => stringify x
         | x :: l' => stringify x +:+ "," +:+ elems l'
         end) items +:+ "]"
  | Obj props =>
      "{" +:+
      (fix members (l : list (string * value)) : string :=
         match l with
         | [] => EmptyString
         | [(k, x)] => quote k +:+ ":" +:+ stringify x
         | (k, x) :: l' => quote k +:+ ":" +:+ stringify x +:+ "," +:+ members l'
         end) props +:+ "}"
  end.

End JSON.

(** ** btoa *)

Inductive JsError : Type :=
| TypeError (msg : string)
| InvalidCharacterError
| PlatformError (detail : string).

(** The code points of a string all of whose characters are at most U+00FF;
    [None] when a character lies above that range. *)
Fixpoint latin1 (s : string) : option (list N) :=
  match s with
  | EmptyString => Some []
  | String c s' =>
      let n := N_of_ascii c in
      if n <? 128 then cons n <$> latin1 s'
      else if (n =? 194) || (n =? 195) then
        match s' with
        | String d s'' => cons ((n - 192) * 64 + (N_of_ascii d - 128)) <$> latin1 s''
        | EmptyString => None
        end
      else None
  end.

Definition b64 (n : N) : ascii :=
  if n <? 26 then chr (65 + n)
  else if n <? 52 then chr (71 + n)
  else if n <? 62 then chr (n - 4)
  else if n =? 62 then chr 43
  else chr 47.

Fixpoint base64 (l : list N) : string :=
  match l with
  | [] => EmptyString
  | [a] =>
      String (b64 (a / 4)) (String (b64 (a mod 4 * 16)) "==")
  | [a; b] =>
      String (b64 (a / 4)) (String (b64 (a mod 4 * 16 + b / 16))
        (String (b64 (b mod 16 * 4)) "="))
  | a :: b :: c :: l' =>
      String (b64 (a / 4)) (String (b64 (a mod 4 * 16 + b / 16))
        (String (b64 (b mod 16 * 4 + c / 64)) (String (b64 (c mod 64)) (base64 l'))))
  end.

(** [btoa] throws an InvalidCharacterError on a character above U+00FF. *)
Definition btoa (s : string) : JsError + string :=
  match latin1 s with
  | Some bytes => inr (base64 bytes)
  | None => inl InvalidCharacterError
  end.

(** ** Platform objects *)

(** A form data entry is a string or a file. *)
Inductive FormDataEntryValue : Type :=
| Text (s : string)
| File (filename : string).

(** The inbound request, as far as the handler looks at it: what
    [request.formData()] settles to, entries in document order. *)
Record InboundRequest : Type := {
  formData : JsError + list (string * FormDataEntryValue)
}.

Record Env : Type := {
  FORWARDEMAIL_USERNAME : string;
  FORWARDEMAIL_PASSWORD : string;
  TO_EMAIL : string
}.

Record Context : Type := { request : InboundRequest; env : Env }.

(** [new Request(url, { method, headers, body })]. *)
Module Request.
Record t : Type := {
  url : string;
  method : string;
  headers : list (string * string);
  body : string
}.
End Request.

(** The response of the delivery API, as far as the handler looks at it. *)
Module Upstream.
Record t : Type := {
  status : N;
  statusText : string;
  text : JsError + string
}.
Definition ok (r : t) : bool := (200 <=? status r) && (status r <=? 299).
End Upstream.

(** A response: body, status and header list. *)
Module Response.
Record t : Type := {
  body : string;
  status : N;
  headers : list (string * string)
}.

(** Header names are compared without regard to case. *)
Definition lower (c : ascii) : ascii :=
  let n := N_of_ascii c in
  if (65 <=? n) && (n <=? 90) then ascii_of_N (n + 32) else c.

Fixpoint lowercase (s : string) : string :=
  match s with
  | EmptyString => EmptyString
  | String c s' => String (lower c) (lowercase s')
  end.

Definition has (name : string) (hs : list (string * string)) : bool :=
  existsb (fun kv => String.eqb (lowercase kv.1) (lowercase name)) hs.

(** [new Response(body, { status, headers })] with a string [body]: the
    header list is that of [init]; when it has no [Content-Type], the
    constructor appends the type of a string body. *)
Definition new (body : string) (status : N) (init_headers : list (string * string)) : t :=
  {| body := body;
     status := status;
     headers :=
       if has "Content-Type" init_headers then init_headers
       else init_headers ++ [("Content-Type", "text/plain;charset=UTF-8")] |}.
End Response.

Inductive ConsoleArg : Type :=
| LogStr (s : string)
| LogErr (e : JsError).

(** What an invocation leaves behind besides its response. *)
Record Effects : Type := {
  console : list (list ConsoleArg);
  outbound : list Request.t
}.

Definition quiet : Effects := {| console := []; outbound := [] |}.

(** The network: what [fetch] settles to for a given request. *)
Definition World : Type := Request.t -> JsError + Upstream.t.

(** ** The monad of the handler *)

Definition M (A : Type) : Type := Effects -> (JsError + A) * Effects.

#[global] Instance M_ret : MRet M := fun A x st => (inr x, st).

#[global] Instance M_bind : MBind M := fun A B f c st =>
  match c st with
  | (inl e, st') => (inl e, st')
  | (inr x, st') => f x st'
  end.

Definition settle {A : Type} (r : JsError + A) : M A := fun st => (r, st).

Definition try_catch {A : Type} (block : M A) (handler : JsError -> M A) : M A :=
  fun st =>
    match block st with
    | (inl e, st') => handler e st'
    | (inr x, st') => (inr x, st')
    end.

Definition logged (args : list ConsoleArg) (st : Effects) : Effects :=
  {| console := console st ++ [args]; outbound := outbound st |}.

Definition sent (rq : Request.t) (st : Effects) : Effects :=
  {| console := console st; outbound := outbound st ++ [rq] |}.

Definition console_error (args : list ConsoleArg) : M unit :=
  fun st => (inr tt, logged args st).

Definition fetch (w : World) (rq : Request.t) : M Upstream.t :=
  fun st => (w rq, sent rq st).

(** ** Values read off the form object *)

(** [Object.fromEntries(formData)]: one property per entry, in order, a later
    entry overwriting an earlier one of the same name. *)
Definition Object_fromEntries (entries : list (string * FormDataEntryValue))
  : gmap string FormDataEntryValue :=
  fold_left (fun o kv => <[kv.1 := kv.2]> o) entries ∅.

Definition truthy (v : option FormDataEntryValue) : bool :=
  match v with
  | None => false
  | Some (Text s) => negb (String.eqb s EmptyString)
  | Some (File _) => true
  end.

(** A value inside a template literal. *)
Definition ToString (v : option FormDataEntryValue) : string :=
  match v with
  | None => "undefined"
  | Some (Text s) => s
  | Some (File _) => "[object File]"
  end.

(** [s.replace(/\n/g, '<br>')] *)
Fixpoint replace_newlines (s : string) : string :=
  match s with
  | EmptyString => EmptyString
  | String c s' =>
      if Ascii.eqb c "010" then "<br>" +:+ replace_newlines s'
      else String c (replace_newlines s')
  end.

(** [v.replace(/\n/g, '<br>')] for a value that need not be a string. *)
Definition replace_method (v : option FormDataEntryValue) : JsError + string :=
  match v with
  | Some (Text s) => inr (replace_newlines s)
  | Some (File _) => inl (TypeError "body.message.replace is not a function")
  | None => inl (TypeError "Cannot read properties of undefined (reading 'replace')")
  end.

(** ** The handler *)

Record ApiPayload : Type := {
  to : list string;
  from : string;
  replyTo : string;
  subject : string;
  html : string
}.

Definition payload_json (p : ApiPayload) : JSON.value :=
  JSON.Obj [("to", JSON.Arr (JSON.Str <$> to p));
            ("from", JSON.Str (from p));
            ("replyTo", JSON.Str (replyTo p));
            ("subject", JSON.Str (subject p));
            ("html", JSON.Str (html p))].

Definition failure_json (message : string) : JSON.value :=
  JSON.Obj [("success", JSON.Bool false); ("message", JSON.Str message)].

Definition json_headers : list (string * string) :=
  [("Content-Type", "application/json")].

Section Handler.

Variable body : gmap string FormDataEntryValue.
Variable env : Env.

(** The template literal of the [html] property, around the three
    interpolated values. *)
Definition html_template (name email message : string) : string :=
  LF +:+
  "        <p>You have received a new message from your website contact form.</p>" +:+ LF +:+
  "        <hr>" +:+ LF +:+
  "        <p><b>Name:</b> " +:+ name +:+ "</p>" +:+ LF +:+
  "        <p><b>Email:</b> " +:+ email +:+ "</p>" +:+ LF +:+
  "        <hr>" +:+ LF +:+
  "        <p><b>Message:</b></p>" +:+ LF +:+
  "        <p>" +:+ message +:+ "</p>" +:+ LF +:+
  "      ".

(** The object literal [apiPayload]. Its properties are evaluated in order;
    only the call of [replace] in the last one can raise, and nothing before
    it has an effect, so that call is written first. *)
Definition apiPayload : M ApiPayload :=
  message ← settle (replace_method (body !! "message"));
  mret {|
    to := [TO_EMAIL env];
    from := DQ +:+ ToString (body !! "name") +:+ DQ +:+ " <" +:+
            FORWARDEMAIL_USERNAME env +:+ ">";
    replyTo := DQ +:+ ToString (body !! "name") +:+ DQ +:+ " <" +:+
               ToString (body !! "email") +:+ ">";
    subject := "New Contact Form Submission: " +:+ ToString (body !! "subject");
    html := html_template (ToString (body !! "name")) (ToString (body !! "email")) message
  |}.

Definition apiRequest (payload : ApiPayload) (basicAuth : string) : Request.t :=
  {| Request.url := "https://api.forwardemail.net/v1/emails";
     Request.method := "POST";
     Request.headers := [("Authorization", "Basic " +:+ basicAuth);
                         ("Content-Type", "application/json")];
     Request.body := JSON.stringify (payload_json payload) |}.

End Handler.

Definition validation_failure : Response.t :=
  Response.new (JSON.stringify (failure_json "Missing required fields.")) 400 json_headers.

Definition delivery_failure : Response.t :=
  Response.new (JSON.stringify (failure_json "Failed to send email.")) 500 json_headers.

Definition unexpected_failure : Response.t :=
  Response.new (JSON.stringify (failure_json "An unexpected error occurred.")) 500
    json_headers.

(** [new Response('OK', { status: 200 })]: no headers are given. *)
Definition success : Response.t := Response.new "OK" 200 [].

(** The [try] block. *)
Definition onRequestPost_try (w : World) (ctx : Context) : M Response.t :=
  entries ← settle (formData (request ctx));
  let body := Object_fromEntries entries in
  if negb (truthy (body !! "name")) || negb (truthy (body !! "email")) ||
     negb (truthy (body !! "subject")) || negb (truthy (body !! "message"))
  then mret validation_failure
  else
    payload ← apiPayload body (env ctx);
    basicAuth ← settle (btoa (FORWARDEMAIL_USERNAME (env ctx) +:+ ":" +:+
                              FORWARDEMAIL_PASSWORD (env ctx)));
    apiResponse ← fetch w (apiRequest payload basicAuth);
    if negb (Upstream.ok apiResponse) then
      console_error
        [LogStr ("forwardemail.net API Error: " +:+
                 NilZero.string_of_uint (N.to_uint (Upstream.status apiResponse)) +:+
                 " " +:+ Upstream.statusText apiResponse)];;
      errorBody ← settle (Upstream.text apiResponse);
      console_error [LogStr ("forwardemail.net Response Body: " +:+ errorBody)];;
      mret delivery_failure
    else mret success.

(** The [catch] block. *)
Definition onRequestPost_catch (error : JsError) : M Response.t :=
  console_error [LogStr "Worker Error:"; LogErr error];;
  mret unexpected_failure.

Definition onRequestPost (w : World) (ctx : Context) : M Response.t :=
  try_catch (onRequestPost_try w ctx) onRequestPost_catch.

(** ** Vocabulary of the properties *)

(** The four required fields. *)
Definition required : list string := ["name"; "email"; "subject"; "message"].

(** A field is missing or empty. *)
Definition absent (v : option FormDataEntryValue) : Prop :=
  v = None \/ v = Some (Text EmptyString).

(** A submission is valid when none of the four fields is missing or empty. *)
Definition valid_submission (body : gmap string FormDataEntryValue) : Prop :=
  forall k, k ∈ required -> ~ absent (body !! k).

(** The test of the validation line, negated. *)
Definition passes_validation (body : gmap string FormDataEntryValue) : bool :=
  truthy (body !! "name") && truthy (body !! "email") &&
  truthy (body !! "subject") && truthy (body !! "message").

(** The four fields of a submission as text. *)
Module Submission.
Record t : Type := {
  name : string;
  email : string;
  subject : string;
  message : string
}.
End Submission.

Definition submitted (body : gmap string FormDataEntryValue) (s : Submission.t) : Prop :=
  body !! "name" = Some (Text (Submission.name s)) /\
  body !! "email" = Some (Text (Submission.email s)) /\
  body !! "subject" = Some (Text (Submission.subject s)) /\
  body !! "message" = Some (Text (Submission.message s)).

Definition filled (s : Submission.t) : Prop :=
  Submission.name s <> EmptyString /\ Submission.email s <> EmptyString /\
  Submission.subject s <> EmptyString /\ Submission.message s <> EmptyString.

(** The value of the last entry called [k], if there is one. *)
Fixpoint last_value (k : string) (entries : list (string * FormDataEntryValue))
  : option FormDataEntryValue :=
  match entries with
  | [] => None
  | (k', v) :: rest =>
      match last_value k rest with
      | Some v' => Some v'
      | None => if String.eqb k' k then Some v else None
      end
  end.

(** The body of a failure response, character by character. *)
Definition failure_body (message : string) : string :=
  "{" +:+ DQ +:+ "success" +:+ DQ +:+ ":false," +:+
  DQ +:+ "message" +:+ DQ +:+ ":" +:+ DQ +:+ message +:+ DQ +:+ "}".

(** The two halves of a run: the response (or the error let through) and the
    effects afterwards. *)
Definition response_of {A : Type} (r : (JsError + A) * Effects) : JsError + A := r.1.
Definition effects_of {A : Type} (r : (JsError + A) * Effects) : Effects := r.2.

(** The part of the [try] block after the validation line. *)
Definition deliver (w : World) (e : Env) (body : gmap string FormDataEntryValue)
  : M Response.t :=
  payload ← apiPayload body e;
  basicAuth ← settle (btoa (FORWARDEMAIL_USERNAME e +:+ ":" +:+ FORWARDEMAIL_PASSWORD e));
  apiResponse ← fetch w (apiRequest payload basicAuth);
  if negb (Upstream.ok apiResponse) then
    console_error
      [LogStr ("forwardemail.net API Error: " +:+
               NilZero.string_of_uint (N.to_uint (Upstream.status apiResponse)) +:+
               " " +:+ Upstream.statusText apiResponse)];;
    errorBody ← settle (Upstream.text apiResponse);
    console_error [LogStr ("forwardemail.net Response Body: " +:+ errorBody)];;
    mret delivery_failure
  else mret success.

Definition credentials (e : Env) : string :=
  FORWARDEMAIL_USERNAME e +:+ ":" +:+ FORWARDEMAIL_PASSWORD e.

Definition api_error_line (r : Upstream.t) : list ConsoleArg :=
  [LogStr ("forwardemail.net API Error: " +:+
           NilZero.string_of_uint (N.to_uint (Upstream.status r)) +:+
           " " +:+ Upstream.statusText r)].

Definition api_body_line (errorBody : string) : list ConsoleArg :=
  [LogStr ("forwardemail.net Response Body: " +:+ errorBody)].

(** The ways through [deliver], each with its path condition. *)
Inductive delivery (w : World) (e : Env) (body : gmap string FormDataEntryValue)
  (st : Effects) : (JsError + Response.t) * Effects -> Prop :=
| delivery_no_payload err :
    apiPayload body e st = (inl err, st) ->
    delivery w e body st (inl err, st)
| delivery_no_auth p err :
    apiPayload body e st = (inr p, st) ->
    btoa (credentials e) = inl err ->
    delivery w e body st (inl err, st)
| delivery_transport p auth err :
    apiPayload body e st = (inr p, st) ->
    btoa (credentials e) = inr auth ->
    w (apiRequest p auth) = inl err ->
    delivery w e body st (inl err, sent (apiRequest p auth) st)
| delivery_accepted p auth r :
    apiPayload body e st = (inr p, st) ->
    btoa (credentials e) = inr auth ->
    w (apiRequest p auth) = inr r ->
    Upstream.ok r = true ->
    delivery w e body st (inr success, sent (apiRequest p auth) st)
| delivery_unreadable p auth r err :
    apiPayload body e st = (inr p, st) ->
    btoa (credentials e) = inr auth ->
    w (apiRequest p auth) = inr r ->
    Upstream.ok r = false ->
    Upstream.text r = inl err ->
    delivery w e body st
      (inl err, logged (api_error_line r) (sent (apiRequest p auth) st))
| delivery_refused p auth r errorBody :
    apiPayload body e st = (inr p, st) ->
    btoa (credentials e) = inr auth ->
    w (apiRequest p auth) = inr r ->
    Upstream.ok r = false ->
    Upstream.text r = inr errorBody ->
    delivery w e body st
      (inr delivery_failure,
       logged (api_body_line errorBody)
         (logged (api_error_line r) (sent (apiRequest p auth) st))).

(** The invocation reaches the [return] inside [if (!apiResponse.ok)]. *)
Definition delivery_failure_path (w : World) (ctx : Context) : Prop :=
  exists entries p auth r errorBody,
    formData (request ctx) = inr entries /\
    valid_submission (Object_fromEntries entries) /\
    response_of (apiPayload (Object_fromEntries entries) (env ctx) quiet) = inr p /\
    btoa (credentials (env ctx)) = inr auth /\
    w (apiRequest p auth) = inr r /\
    Upstream.ok r = false /\
    Upstream.text r = inr errorBody.

(** What the handler tells apart in the answer of the network. *)
Inductive Verdict : Type := Unreachable | Accepted | Refused | Unreadable.

Definition verdict (answer : JsError + Upstream.t) : Verdict :=
  match answer with
  | inl _ => Unreachable
  | inr r =>
      if Upstream.ok r then Accepted
      else match Upstream.text r with
           | inl _ => Unreadable
           | inr _ => Refused
           end
  end.

(** Two networks that differ at most in upstream detail: status code within
    a class, status text, response body, error value. *)
Definition same_verdicts (w1 w2 : World) : Prop :=
  forall rq, verdict (w1 rq) = verdict (w2 rq).

(** The response once a call has gone out. *)
Definition response_to (answer : JsError + Upstream.t) : Response.t :=
  match verdict answer with
  | Accepted => success
  | Refused => delivery_failure
  | Unreachable | Unreadable => unexpected_failure
  end.

(** *** Counting in strings *)

Fixpoint starts_with (p s : string) : bool :=
  match p, s with
  | EmptyString, _ => true
  | String _ _, EmptyString => false
  | String a p', String b s' => Ascii.eqb a b && starts_with p' s'
  end.

(** The number of places of [s] at which [p] occurs. *)
Fixpoint occurrences (p s : string) : nat :=
  match s with
  | EmptyString => 0%nat
  | String _ s' => ((if starts_with p s then 1 else 0) + occurrences p s')%nat
  end.

Definition markers (s : string) : nat := occurrences "<br>" s.

Fixpoint newlines (s : string) : nat :=
  match s with
  | EmptyString => 0%nat
  | String c s' => ((if Ascii.eqb c "010" then 1 else 0) + newlines s')%nat
  end.

(** ** Sample invocations *)

Definition site : Env :=
  {| FORWARDEMAIL_USERNAME := "forms@braz.coach";
     FORWARDEMAIL_PASSWORD := "s3cret";
     TO_EMAIL := "coach@braz.coach" |}.

Definition post (entries : list (string * FormDataEntryValue)) : Context :=
  {| request := {| formData := inr entries |}; env := site |}.

Definition jane : Submission.t :=
  {| Submission.name := "Jane";
     Submission.email := "jane@x.com";
     Submission.subject := "Hello";
     Submission.message := "Hi" +:+ LF +:+ "There" |}.

Definition entries_of (s : Submission.t) : list (string * FormDataEntryValue) :=
  [("name", Text (Submission.name s)); ("email", Text (Submission.email s));
   ("subject", Text (Submission.subject s)); ("message", Text (Submission.message s))].

Definition no_email_entries : list (string * FormDataEntryValue) :=
  [("name", Text "Jane"); ("subject", Text "Hello"); ("message", Text "Hi")].

(** A submission that carries markup of its own. *)
Definition marked_up : Submission.t :=
  {| Submission.name := "<b>Jane</b>";
     Submission.email := "jane@x.com";
     Submission.subject := "Hello";
     Submission.message := "one<br>two" |}.

(** A delivery API that answers every call with the given status. *)
Definition upstream (status : N) (statusText text : string) : World :=
  fun _ => inr {| Upstream.status := status;
                  Upstream.statusText := statusText;
                  Upstream.text := inr text |}.

(** A network on which every call fails. *)
Definition offline : World := fun _ => inl (PlatformError "Network connection lost.").

(** ** The runs of the handler, path by path *)

Definition worker_error_line (e : JsError) : list ConsoleArg :=
  [LogStr "Worker Error:"; LogErr e].

(** [outcome w ctx st r st'] lists the ways through [onRequestPost], each
    with the conditions under which it is taken, the response [r] it returns
    and the effects [st'] it leaves. *)
Inductive outcome (w : World) (ctx : Context) (st : Effects)
  : Response.t -> Effects -> Prop :=
| outcome_unparsed e :
    formData (request ctx) = inl e ->
    outcome w ctx st unexpected_failure (logged (worker_error_line e) st)
| outcome_invalid entries :
    formData (request ctx) = inr entries ->
    passes_validation (Object_fromEntries entries) = false ->
    outcome w ctx st validation_failure st
| outcome_no_payload entries e :
    formData (request ctx) = inr entries ->
    passes_validation (Object_fromEntries entries) = true ->
    replace_method (Object_fromEntries entries !! "message") = inl e ->
    outcome w ctx st unexpected_failure (logged (worker_error_line e) st)
| outcome_no_auth entries p e :
    formData (request ctx) = inr entries ->
    passes_validation (Object_fromEntries entries) = true ->
    response_of (apiPayload (Object_fromEntries entries) (env ctx) quiet) = inr p ->
    btoa (credentials (env ctx)) = inl e ->
    outcome w ctx st unexpected_failure (logged (worker_error_line e) st)
| outcome_transport entries p auth e :
    formData (request ctx) = inr entries ->
    passes_validation (Object_fromEntries entries) = true ->
    response_of (apiPayload (Object_fromEntries entries) (env ctx) quiet) = inr p ->
    btoa (credentials (env ctx)) = inr auth ->
    w (apiRequest p auth) = inl e ->
    outcome w ctx st unexpected_failure
      (logged (worker_error_line e) (sent (apiRequest p auth) st))
| outcome_accepted entries p auth up :
    formData (request ctx) = inr entries ->
    passes_validation (Object_fromEntries entries) = true ->
    response_of (apiPayload (Object_fromEntries entries) (env ctx) quiet) = inr p ->
    btoa (credentials (env ctx)) = inr auth ->
    w (apiRequest p auth) = inr up ->
    Upstream.ok up = true ->
    outcome w ctx st success (sent (apiRequest p auth) st)
| outcome_unreadable entries p auth up e :
    formData (request ctx) = inr entries ->
    passes_validation (Object_fromEntries entries) = true ->
    response_of (apiPayload (Object_fromEntries entries) (env ctx) quiet) = inr p ->
    btoa (credentials (env ctx)) = inr auth ->
    w (apiRequest p auth) = inr up ->
    Upstream.ok up = false ->
    Upstream.text up = inl e ->
    outcome w ctx st unexpected_failure
      (logged (worker_error_line e)
         (logged (api_error_line up) (sent (apiRequest p auth) st)))
| outcome_refused entries p auth up errorBody :
    formData (request ctx) = inr entries ->
    passes_validation (Object_fromEntries entries) = true ->
    response_of (apiPayload (Object_fromEntries entries) (env ctx) quiet) = inr p ->
    btoa (credentials (env ctx)) = inr auth ->
    w (apiRequest p auth) = inr up ->
    Upstream.ok up = false ->
    Upstream.text up = inr errorBody ->
    outcome w ctx st delivery_failure
      (logged (api_body_line errorBody)
         (logged (api_error_line up) (sent (apiRequest p auth) st))).

(** Every character is below U+0080. *)
Fixpoint ascii_only (s : string) : bool :=
  match s with
  | EmptyString => true
  | String c s' => (N_of_ascii c <? 128) && ascii_only s'
  end.


(** A form with a file in the message field. *)
Definition attachment_entries : list (string * FormDataEntryValue) :=
  [("name", Text "Jane"); ("email", Text "jane@x.com");
   ("subject", Text "Hello"); ("message", File "notes.txt")].

(** A configuration whose secret has a character above U+00FF (the euro
    sign, bytes E2 82 AC). *)
Definition euro_site : Env :=
  {| FORWARDEMAIL_USERNAME := "forms@braz.coach";
     FORWARDEMAIL_PASSWORD :=
       "5" +:+ String (chr 226) (String (chr 130) (String (chr 172) EmptyString));
     TO_EMAIL := "coach@braz.coach" |}.

(** ** Stepping through the handler *)

Lemma validation_test body :
  negb (truthy (body !! "name")) || negb (truthy (body !! "email")) ||
  negb (truthy (body !! "subject")) || negb (truthy (body !! "message"))
  = negb (passes_validation body).
Proof.
  unfold passes_validation.
  destruct (truthy (body !! "name")), (truthy (body !! "email")),
    (truthy (body !! "subject")), (truthy (body !! "message")); reflexivity.
Qed.

Lemma try_parse_error w ctx e st :
  formData (request ctx) = inl e ->
  onRequestPost_try w ctx st = (inl e, st).
Proof. intros H. unfold onRequestPost_try, mbind, M_bind, settle. rewrite H. reflexivity. Qed.

Lemma try_parsed w ctx entries st :
  formData (request ctx) = inr entries ->
  onRequestPost_try w ctx st =
    if passes_validation (Object_fromEntries entries)
    then deliver w (env ctx) (Object_fromEntries entries) st
    else (inr validation_failure, st).
Proof.
  intros H. unfold onRequestPost_try, mbind at 1, M_bind at 1, settle at 1.
  rewrite H. cbv zeta. rewrite validation_test.
  destruct (passes_validation _); reflexivity.
Qed.

Lemma catch_run e st :
  onRequestPost_catch e st =
    (inr unexpected_failure, logged [LogStr "Worker Error:"; LogErr e] st).
Proof. reflexivity. Qed.

Lemma handler_of_try w ctx st :
  onRequestPost w ctx st =
    match onRequestPost_try w ctx st with
    | (inl e, st') => onRequestPost_catch e st'
    | (inr r, st') => (inr r, st')
    end.
Proof. reflexivity. Qed.

Lemma apiPayload_effects body e st :
  exists o, apiPayload body e st = (o, st).
Proof.
  unfold apiPayload, mbind, M_bind, settle, mret, M_ret.
  destruct (replace_method (body !! "message")); eauto.
Qed.

Lemma deliver_delivery w e body st : delivery w e body st (deliver w e body st).
Proof.
  unfold deliver. unfold mbind at 1, M_bind at 1.
  destruct (apiPayload_effects body e st) as [[err | p] Hp]; rewrite Hp.
  { by apply delivery_no_payload. }
  unfold mbind at 1, M_bind at 1, settle at 1. fold (credentials e).
  destruct (btoa (credentials e)) as [err | auth] eqn:Hauth.
  { by eapply delivery_no_auth. }
  unfold mbind at 1, M_bind at 1, fetch.
  destruct (w (apiRequest p auth)) as [err | r] eqn:Hw.
  { by eapply delivery_transport. }
  destruct (Upstream.ok r) eqn:Hok; cbn [negb].
  { by eapply delivery_accepted. }
  unfold mbind, M_bind, console_error, settle, mret, M_ret.
  fold (api_error_line r).
  destruct (Upstream.text r) as [err | errorBody] eqn:Htext.
  - by eapply delivery_unreadable.
  - by eapply delivery_refused.
Qed.

Lemma truthy_not_absent v : truthy v = true <-> ~ absent v.
Proof.
  unfold absent. destruct v as [[[| c s] | f] |]; simpl; split;
    try done; try (by intros _ [? | ?]); intros H; exfalso; apply H; auto.
Qed.

Lemma valid_passes body : valid_submission body <-> passes_validation body = true.
Proof.
  unfold valid_submission, passes_validation, required. split.
  - intros H. rewrite !andb_true_iff, !truthy_not_absent.
    repeat split; apply H; set_solver.
  - rewrite !andb_true_iff, !truthy_not_absent. intros [[[Hn He] Hs] Hm] k Hk.
    rewrite !elem_of_cons, elem_of_nil in Hk.
    destruct Hk as [-> | [-> | [-> | [-> | []]]]]; done.
Qed.

Lemma absent_fails body k :
  k ∈ required -> absent (body !! k) -> passes_validation body = false.
Proof.
  intros Hk Ha. destruct (passes_validation body) eqn:Hp; [| done].
  apply valid_passes in Hp. destruct (Hp k Hk Ha).
Qed.

Lemma sent_neq (l : list Request.t) rq : l <> (l ++ [rq])%list.
Proof.
  intros H. apply (f_equal length) in H. rewrite length_app in H. simpl in H. lia.
Qed.

(** Once a call has gone out, the response is read off the answer. *)
Lemma handler_after_call w ctx entries st rq :
  formData (request ctx) = inr entries ->
  valid_submission (Object_fromEntries entries) ->
  outbound (effects_of (onRequestPost w ctx st)) = (outbound st ++ [rq])%list ->
  response_of (onRequestPost w ctx st) = inr (response_to (w rq)).
Proof.
  intros Hf Hv. apply valid_passes in Hv.
  rewrite handler_of_try, (try_parsed _ _ _ _ Hf), Hv.
  pose proof (deliver_delivery w (env ctx) (Object_fromEntries entries) st) as D.
  inversion D as [err Hp Heq | p err Hp Ha Heq | p auth err Hp Ha Hw Heq
                 | p auth r Hp Ha Hw Hok Heq | p auth r err Hp Ha Hw Hok Ht Heq
                 | p auth r b Hp Ha Hw Hok Ht Heq];
    unfold effects_of, response_of; simpl; intros Hout;
    try (by destruct (sent_neq _ _ Hout));
    apply app_inj_tail in Hout as [_ <-]; unfold response_to, verdict;
    rewrite Hw, ?Hok, ?Ht; reflexivity.
Qed.

(** Whatever happens, the handler answers with one of its four responses. *)
Lemma handler_outcome w ctx st :
  exists r st',
    onRequestPost w ctx st = (inr r, st') /\
    r ∈ [validation_failure; delivery_failure; unexpected_failure; success] /\
    forall e st1, onRequestPost_try w ctx st = (inl e, st1) ->
      r = unexpected_failure /\ st' = logged [LogStr "Worker Error:"; LogErr e] st1.
Proof.
  rewrite handler_of_try.
  destruct (formData (request ctx)) as [e | entries] eqn:Hf.
  { rewrite (try_parse_error _ _ _ _ Hf), catch_run.
    eexists _, _. split; [done |]. split; [set_solver |].
    intros ? ? [= <- <-]. done. }
  rewrite (try_parsed _ _ _ _ Hf).
  destruct (passes_validation _).
  2: { eexists _, _. split; [done |]. split; [set_solver | done]. }
  destruct (deliver_delivery w (env ctx) (Object_fromEntries entries) st);
    rewrite ?catch_run; eexists _, _; (split; [done |]); (split; [set_solver |]);
    intros ? ? [= <- <-] || intros ? ? [=]; done.
Qed.

(** ** Strings *)

#[local] Arguments String.append !_ _ / : simpl nomatch.
#[local] Arguments Ascii.eqb !_ !_ / : simpl nomatch.

Lemma append_assoc (a b c : string) : (a +:+ b) +:+ c = a +:+ (b +:+ c).
Proof. induction a as [| x a IH]; simpl; [done | by rewrite IH]. Qed.

Lemma replace_newlines_app a b :
  replace_newlines (a +:+ b) = replace_newlines a +:+ replace_newlines b.
Proof.
  induction a as [| x a IH]; simpl; [done |].
  destruct (Ascii.eqb x "010"); simpl; by rewrite IH.
Qed.

Lemma replace_newlines_id s : newlines s = 0%nat -> replace_newlines s = s.
Proof.
  induction s as [| x s IH]; simpl; [done |].
  destruct (Ascii.eqb x "010"); simpl; [done |]. intros H. by rewrite IH.
Qed.

Lemma replace_newlines_clean s : newlines (replace_newlines s) = 0%nat.
Proof.
  induction s as [| x s IH]; simpl; [done |].
  destruct (Ascii.eqb x "010") eqn:E; simpl; [done |]. by rewrite E.
Qed.

(** After the first character of the marker, a replaced newline and the
    newline it replaces both fail to match. *)
Lemma starts_with_br_replace s :
  starts_with "br>" (replace_newlines s) = starts_with "br>" s.
Proof.
  destruct s as [| x [| y [| z s]]]; simpl; [done | | |].
  all: destruct (Ascii.eqb_spec x "010") as [-> |]; simpl; [done |].
  all: destruct (Ascii.eqb "b" x); simpl; [| done].
  1: done.
  all: destruct (Ascii.eqb_spec y "010") as [-> |]; simpl; [done |].
  all: destruct (Ascii.eqb "r" y); simpl; [| done].
  1: done.
  all: destruct (Ascii.eqb_spec z "010") as [-> |]; simpl; done.
Qed.

Lemma starts_with_cons a p b s :
  starts_with (String a p) (String b s) = Ascii.eqb a b && starts_with p s.
Proof. reflexivity. Qed.

Lemma occurrences_cons p c s :
  occurrences p (String c s)
  = ((if starts_with p (String c s) then 1 else 0) + occurrences p s)%nat.
Proof. reflexivity. Qed.

(** Replacing the newlines adds one marker per newline. *)
Lemma markers_replace s :
  markers (replace_newlines s) = (newlines s + markers s)%nat.
Proof.
  unfold markers. induction s as [| x s IH]; [done |].
  cbn [replace_newlines newlines].
  destruct (Ascii.eqb_spec x "010") as [-> | Hx].
  - cbn. rewrite IH. lia.
  - rewrite !occurrences_cons, !(starts_with_cons "<" "br>").
    rewrite IH, starts_with_br_replace. lia.
Qed.

(** A character that is none of [b], [r], [>] ends every partial match. *)
Lemma starts_with_br_break a c b :
  c <> "b"%char -> c <> "r"%char -> c <> ">"%char ->
  starts_with "br>" (a +:+ String c b) = starts_with "br>" a.
Proof.
  intros Hb Hr Hg.
  apply Ascii.eqb_neq in Hb, Hr, Hg.
  rewrite Ascii.eqb_sym in Hb, Hr, Hg.
  destruct a as [| x [| y [| z a]]]; simpl; rewrite ?Hb, ?Hr, ?Hg, ?andb_false_r; done.
Qed.

Lemma markers_break a c b :
  c <> "b"%char -> c <> "r"%char -> c <> ">"%char ->
  markers (a +:+ String c b) = (markers a + markers (String c b))%nat.
Proof.
  intros Hb Hr Hg. unfold markers.
  induction a as [| x a IH]; [done |].
  change (String x a +:+ String c b) with (String x (a +:+ String c b)).
  rewrite (occurrences_cons _ x), (occurrences_cons _ x a).
  rewrite !(starts_with_cons "<" "br>"), IH, starts_with_br_break by done. lia.
Qed.

Lemma markers_html name email message :
  markers (html_template name email message)
  = (markers name + markers email + markers message)%nat.
Proof.
  unfold html_template, LF, str1.
  repeat (cbn; rewrite ?append_assoc; rewrite ?markers_break by done).
  cbn. lia.
Qed.

(** ** The form object *)

Lemma fold_entries_lookup entries (o : gmap string FormDataEntryValue) k :
  fold_left (fun o kv => <[kv.1 := kv.2]> o) entries o !! k =
    match last_value k entries with
    | Some v => Some v
    | None => o !! k
    end.
Proof.
  revert o. induction entries as [| [k' v] rest IH]; intros o; [done |].
  cbn [fold_left last_value fst snd]. rewrite IH.
  destruct (last_value k rest); [done |].
  destruct (String.eqb_spec k' k) as [-> | Hne].
  - by rewrite lookup_insert_eq.
  - by rewrite lookup_insert_ne.
Qed.

Lemma fromEntries_lookup entries k :
  Object_fromEntries entries !! k = last_value k entries.
Proof.
  unfold Object_fromEntries. rewrite fold_entries_lookup, lookup_empty.
  by destruct (last_value k entries).
Qed.

Lemma last_value_app front k v back :
  k ∉ back.*1 -> last_value k (front ++ (k, v) :: back) = Some v.
Proof.
  intros Hk. induction front as [| [k' v'] front IH]; simpl.
  - assert (last_value k back = None) as ->.
    { induction back as [| [k2 v2] back IHb]; [done |]. simpl in *.
      apply not_elem_of_cons in Hk as [Hne Hk]. rewrite (IHb Hk).
      destruct (String.eqb_spec k2 k); congruence. }
    by rewrite String.eqb_refl.
  - by rewrite IH.
Qed.

(** ** The payload of a submission *)

Lemma submitted_valid body s : submitted body s -> filled s -> valid_submission body.
Proof.
  intros (Hn & He & Hs & Hm) (Fn & Fe & Fs & Fm) k Hk.
  unfold required in Hk. rewrite !elem_of_cons, elem_of_nil in Hk.
  destruct Hk as [-> | [-> | [-> | [-> | []]]]]; intros [H | H]; congruence.
Qed.

Lemma apiPayload_submitted body e s st :
  submitted body s ->
  apiPayload body e st =
    (inr {| to := [TO_EMAIL e];
            from := DQ +:+ Submission.name s +:+ DQ +:+ " <" +:+
                    FORWARDEMAIL_USERNAME e +:+ ">";
            replyTo := DQ +:+ Submission.name s +:+ DQ +:+ " <" +:+
                       Submission.email s +:+ ">";
            subject := "New Contact Form Submission: " +:+ Submission.subject s;
            html := html_template (Submission.name s) (Submission.email s)
                      (replace_newlines (Submission.message s)) |}, st).
Proof.
  intros (Hn & He & Hs & Hm). unfold apiPayload. rewrite Hn, He, Hs, Hm. reflexivity.
Qed.

(** The calls of a run whose payload could be built: one, unless the
    credentials cannot be encoded. *)
Lemma valid_calls w ctx entries p st :
  formData (request ctx) = inr entries ->
  valid_submission (Object_fromEntries entries) ->
  apiPayload (Object_fromEntries entries) (env ctx) st = (inr p, st) ->
  outbound (effects_of (onRequestPost w ctx st)) =
    (outbound st ++
     match btoa (credentials (env ctx)) with
     | inr auth => [apiRequest p auth]
     | inl _ => []
     end)%list.
Proof.
  intros Hf Hv Hp. apply valid_passes in Hv.
  rewrite handler_of_try, (try_parsed _ _ _ _ Hf), Hv.
  destruct (deliver_delivery w (env ctx) (Object_fromEntries entries) st)
    as [err Hp' | p' err Hp' Ha | p' auth err Hp' Ha Hw | p' auth r Hp' Ha Hw Hok
        | p' auth r err Hp' Ha Hw Hok Ht | p' auth r b Hp' Ha Hw Hok Ht];
    rewrite Hp in Hp'; try discriminate; injection Hp' as <-;
    rewrite Ha; unfold effects_of; simpl; by rewrite ?app_nil_r.
Qed.

Lemma verdict_response a1 a2 : verdict a1 = verdict a2 -> response_to a1 = response_to a2.
Proof. unfold response_to. by intros ->. Qed.

(** The response of the handler depends on the network only through the
    verdicts. *)
Lemma deliver_same_verdicts w1 w2 e body st1 st2 :
  same_verdicts w1 w2 ->
  response_of
    (try_catch (deliver w1 e body) onRequestPost_catch st1) =
  response_of
    (try_catch (deliver w2 e body) onRequestPost_catch st2).
Proof.
  intros Hw. unfold try_catch, deliver, apiPayload, mbind, M_bind, settle, fetch,
    console_error, mret, M_ret, onRequestPost_catch.
  destruct (replace_method (body !! "message")) as [err | m]; [done |].
  destruct (btoa _) as [err | auth]; [done |].
  match goal with |- context [w1 ?rq] => specialize (Hw rq); unfold verdict in Hw;
    destruct (w1 rq) as [e1 | r1], (w2 rq) as [e2 | r2] end; try done.
  - by destruct (Upstream.ok r2), (Upstream.text r2).
  - by destruct (Upstream.ok r1), (Upstream.text r1).
  - destruct (Upstream.ok r1), (Upstream.ok r2), (Upstream.text r1), (Upstream.text r2);
      done.
Qed.
(** ** Validation *)

(** C1. When one of [name], [email], [subject], [message] is missing from the
    form or is the empty string, the handler answers with status 400 and the
    JSON body [{"success":false,"message":"Missing required fields."}], and
    leaves no effect behind: no call to the delivery API and no log line. *)
Theorem missing_field_rejected w ctx entries st k :
  formData (request ctx) = inr entries ->
  k ∈ required ->
  absent (Object_fromEntries entries !! k) ->
  onRequestPost w ctx st = (inr validation_failure, st) /\
  Response.status validation_failure = 400 /\
  Response.body validation_failure = failure_body "Missing required fields." /\
  outbound (effects_of (onRequestPost w ctx st)) = outbound st.
Proof.
  intros Hf Hk Ha.
  assert (onRequestPost w ctx st = (inr validation_failure, st)) as ->.
  { rewrite handler_of_try, (try_parsed _ _ _ _ Hf), (absent_fails _ _ Hk Ha).
    reflexivity. }
  repeat split.
Qed.

Lemma missing_field_rejected_witness :
  onRequestPost (upstream 200 "OK" "queued") (post no_email_entries) quiet
    = (inr validation_failure, quiet) /\
  Response.status validation_failure = 400 /\
  Response.body validation_failure = failure_body "Missing required fields." /\
  outbound (effects_of
    (onRequestPost (upstream 200 "OK" "queued") (post no_email_entries) quiet)) = [].
Proof.
  apply (missing_field_rejected (upstream 200 "OK" "queued") (post no_email_entries)
           no_email_entries quiet "email").
  - reflexivity.
  - unfold required. apply list_elem_of_further, list_elem_of_here.
  - left. vm_compute. reflexivity.
Defined.

(** ** Delivery *)

(** C2, as the code has it. For a valid submission whose call to the delivery
    API has gone out: when the call completes with a status outside 200..299
    and its body can be read, the handler answers with status 500 and
    [{"success":false,"message":"Failed to send email."}]; when the call
    raises, or reading the body of such an answer raises, the handler answers
    with status 500 and
    [{"success":false,"message":"An unexpected error occurred."}]. *)
Theorem failed_delivery_responses w ctx entries st rq :
  formData (request ctx) = inr entries ->
  valid_submission (Object_fromEntries entries) ->
  outbound (effects_of (onRequestPost w ctx st)) = (outbound st ++ [rq])%list ->
  (forall r errorBody,
     w rq = inr r -> Upstream.ok r = false -> Upstream.text r = inr errorBody ->
     response_of (onRequestPost w ctx st) = inr delivery_failure) /\
  (forall err,
     w rq = inl err ->
     response_of (onRequestPost w ctx st) = inr unexpected_failure) /\
  (forall r err,
     w rq = inr r -> Upstream.ok r = false -> Upstream.text r = inl err ->
     response_of (onRequestPost w ctx st) = inr unexpected_failure) /\
  Response.status delivery_failure = 500 /\
  Response.body delivery_failure = failure_body "Failed to send email." /\
  Response.status unexpected_failure = 500 /\
  Response.body unexpected_failure = failure_body "An unexpected error occurred.".
Proof.
  intros Hf Hv Hout. rewrite (handler_after_call _ _ _ _ _ Hf Hv Hout).
  unfold response_to, verdict. repeat split.
  - intros r b -> -> ->. reflexivity.
  - intros err ->. reflexivity.
  - intros r err -> -> ->. reflexivity.
Qed.

Lemma failed_delivery_responses_witness :
  response_of
    (onRequestPost (upstream 401 "Unauthorized" "Invalid credentials")
       (post (entries_of jane)) quiet) = inr delivery_failure /\
  response_of (onRequestPost offline (post (entries_of jane)) quiet)
    = inr unexpected_failure.
Proof.
  split.
  - edestruct (failed_delivery_responses
                 (upstream 401 "Unauthorized" "Invalid credentials")
                 (post (entries_of jane)) (entries_of jane) quiet)
      as (Hrefused & _).
    + reflexivity.
    + apply valid_passes. vm_compute. reflexivity.
    + vm_compute. reflexivity.
    + eapply Hrefused; reflexivity.
  - edestruct (failed_delivery_responses offline
                 (post (entries_of jane)) (entries_of jane) quiet)
      as (_ & Hraised & _).
    + reflexivity.
    + apply valid_passes. vm_compute. reflexivity.
    + vm_compute. reflexivity.
    + eapply Hraised; reflexivity.
Defined.

(** C2 as stated fails when the call raises: a valid submission sent over a
    network on which [fetch] rejects is answered with the response of the
    [catch] block, not with the delivery failure. *)
Lemma transport_failure_not_delivery_failure :
  valid_submission (Object_fromEntries (entries_of jane)) /\
  (exists rq err,
     outbound (effects_of (onRequestPost offline (post (entries_of jane)) quiet)) = [rq] /\
     offline rq = inl err) /\
  response_of (onRequestPost offline (post (entries_of jane)) quiet)
    = inr unexpected_failure /\
  response_of (onRequestPost offline (post (entries_of jane)) quiet)
    <> inr delivery_failure.
Proof.
  split; [apply valid_passes; vm_compute; reflexivity |].
  split; [eexists _, _; split; [vm_compute; reflexivity | reflexivity] |].
  split; [vm_compute; reflexivity |].
  vm_compute. discriminate.
Qed.

(** C5. For a valid submission whose call to the delivery API completes with
    a status in 200..299, the handler answers with the plain text [OK] and
    status 200. *)
Theorem accepted_delivery_answers_OK w ctx entries st rq r :
  formData (request ctx) = inr entries ->
  valid_submission (Object_fromEntries entries) ->
  outbound (effects_of (onRequestPost w ctx st)) = (outbound st ++ [rq])%list ->
  w rq = inr r ->
  Upstream.ok r = true ->
  response_of (onRequestPost w ctx st) = inr success /\
  Response.body success = "OK" /\
  Response.status success = 200.
Proof.
  intros Hf Hv Hout Hw Hok. rewrite (handler_after_call _ _ _ _ _ Hf Hv Hout).
  unfold response_to, verdict. by rewrite Hw, Hok.
Qed.

Lemma accepted_delivery_answers_OK_witness :
  response_of (onRequestPost (upstream 200 "OK" "queued") (post (entries_of jane)) quiet)
    = inr success /\
  Response.body success = "OK" /\
  Response.status success = 200.
Proof.
  eapply (accepted_delivery_answers_OK (upstream 200 "OK" "queued")
            (post (entries_of jane)) (entries_of jane) quiet).
  - reflexivity.
  - apply valid_passes. vm_compute. reflexivity.
  - vm_compute. reflexivity.
  - reflexivity.
  - reflexivity.
Defined.

(** ** Totality *)

(** C6. The handler never lets an error through. Whatever the request, the
    configuration and the network do, it returns a response, and that
    response is one of the four the handler builds: the three JSON failures
    or the plain [OK]. Any error raised inside the [try] block (a body that
    is not form data is one) is logged and turned into status 500 with
    [{"success":false,"message":"An unexpected error occurred."}]. *)
Theorem handler_never_throws w ctx st :
  exists r st',
    onRequestPost w ctx st = (inr r, st') /\
    r ∈ [validation_failure; delivery_failure; unexpected_failure; success] /\
    (forall e st1, onRequestPost_try w ctx st = (inl e, st1) ->
       r = unexpected_failure /\
       st' = logged [LogStr "Worker Error:"; LogErr e] st1) /\
    (forall e, formData (request ctx) = inl e -> r = unexpected_failure) /\
    Response.status unexpected_failure = 500 /\
    Response.body unexpected_failure = failure_body "An unexpected error occurred.".
Proof.
  destruct (handler_outcome w ctx st) as (r & st' & Hrun & Hr & Hcatch).
  exists r, st'. split; [done |]. split; [done |]. split; [done |].
  split; [| done].
  intros e He. by apply (Hcatch e st), try_parse_error.
Qed.

Lemma handler_never_throws_witness :
  onRequestPost offline
    {| request := {| formData := inl (TypeError "Unsupported content type") |};
       env := site |} quiet
  = (inr unexpected_failure,
     logged [LogStr "Worker Error:"; LogErr (TypeError "Unsupported content type")] quiet).
Proof.
  destruct (handler_never_throws offline
              {| request := {| formData := inl (TypeError "Unsupported content type") |};
                 env := site |} quiet)
    as (r & st' & Hrun & _ & Hcatch & _).
  destruct (Hcatch (TypeError "Unsupported content type") quiet eq_refl) as [-> ->].
  exact Hrun.
Defined.

(** ** Headers *)

(** C10 as stated fails for the success response: it is built without a
    headers option, but a response built from a string body carries the
    content type of that body, so the [OK] response is not without a
    Content-Type header. *)
Lemma success_carries_text_content_type :
  response_of
    (onRequestPost (upstream 200 "OK" "queued") (post (entries_of jane)) quiet)
    = inr (Response.new "OK" 200 []) /\
  Response.headers (Response.new "OK" 200 [])
    = [("Content-Type", "text/plain;charset=UTF-8")] /\
  Response.headers (Response.new "OK" 200 []) <> [].
Proof.
  split; [vm_compute; reflexivity |]. split; [reflexivity |].
  vm_compute. discriminate.
Qed.

(** C10, as the code has it. Each of the three failure responses (validation
    failure, delivery failure, unexpected error) carries exactly the header
    [Content-Type: application/json]. The success response is built without
    a headers option and carries only the default content type of a string
    body, [text/plain;charset=UTF-8]. Every response of the handler is one
    of these four, so a response has the JSON content type exactly when it
    is not the [OK] with status 200. *)
Theorem failures_are_json_success_is_text w ctx st :
  Response.headers validation_failure = [("Content-Type", "application/json")] /\
  Response.headers delivery_failure = [("Content-Type", "application/json")] /\
  Response.headers unexpected_failure = [("Content-Type", "application/json")] /\
  Response.headers success = [("Content-Type", "text/plain;charset=UTF-8")] /\
  exists r st',
    onRequestPost w ctx st = (inr r, st') /\
    (Response.status r = 200 ->
     Response.body r = "OK" /\
     Response.headers r = [("Content-Type", "text/plain;charset=UTF-8")]) /\
    (Response.status r <> 200 ->
     r ∈ [validation_failure; delivery_failure; unexpected_failure] /\
     Response.headers r = [("Content-Type", "application/json")]).
Proof.
  do 4 (split; [reflexivity |]).
  destruct (handler_outcome w ctx st) as (r & st' & Hrun & Hr & _).
  exists r, st'. split; [done |].
  rewrite !elem_of_cons, elem_of_nil in Hr.
  destruct Hr as [-> | [-> | [-> | [-> | []]]]]; split;
    first [ by intros H; vm_compute in H
          | intros _; split; [set_solver | reflexivity]
          | intros _; split; reflexivity ].
Qed.

Lemma failures_are_json_success_is_text_witness :
  exists r st',
    onRequestPost offline (post no_email_entries) quiet = (inr r, st') /\
    Response.status r = 400 /\
    Response.headers r = [("Content-Type", "application/json")].
Proof.
  destruct (failures_are_json_success_is_text offline (post no_email_entries) quiet)
    as (_ & _ & _ & _ & r & st' & Hrun & _ & Hfailure).
  exists r, st'. split; [exact Hrun |].
  change (onRequestPost offline (post no_email_entries) quiet)
    with (@inr JsError Response.t validation_failure, quiet) in Hrun.
  injection Hrun as <- <-. split; [reflexivity |].
  apply Hfailure. vm_compute. discriminate.
Defined.


Lemma apiPayload_run body e st :
  apiPayload body e st = (response_of (apiPayload body e quiet), st).
Proof.
  unfold apiPayload, response_of, mbind, M_bind, settle, mret, M_ret.
  by destruct (replace_method (body !! "message")).
Qed.

Lemma handler_same_verdicts w1 w2 ctx st1 st2 :
  same_verdicts w1 w2 ->
  response_of (onRequestPost w1 ctx st1) = response_of (onRequestPost w2 ctx st2).
Proof.
  intros Hw. destruct (formData (request ctx)) as [e | entries] eqn:Hf.
  { by rewrite !handler_of_try, !(try_parse_error _ _ _ _ Hf). }
  unfold onRequestPost, try_catch. rewrite !(try_parsed _ _ _ _ Hf).
  destruct (passes_validation _); [| done].
  by apply (deliver_same_verdicts w1 w2).
Qed.

Lemma delivery_failure_path_run w ctx st :
  delivery_failure_path w ctx ->
  response_of (onRequestPost w ctx st) = inr delivery_failure.
Proof.
  intros (entries & p & auth & r & b & Hf & Hv & Hp & Ha & Hw & Hok & Ht).
  apply valid_passes in Hv.
  rewrite handler_of_try, (try_parsed _ _ _ _ Hf), Hv.
  unfold deliver. unfold mbind at 1, M_bind at 1. rewrite apiPayload_run, Hp.
  unfold mbind at 1, M_bind at 1, settle at 1. fold (credentials (env ctx)).
  rewrite Ha. unfold mbind at 1, M_bind at 1, fetch. rewrite Hw, Hok.
  unfold mbind, M_bind, console_error, settle, mret, M_ret. cbn [negb]. by rewrite Ht.
Qed.

(** ** Form parsing *)

(** C7. The form object gives each field name the value of its last entry:
    when a name repeats in the body, the last value is the one the
    validation line and the payload see, and the answer of the handler
    depends on the entries only through the last value of each of the four
    fields. *)
Theorem last_value_wins entries :
  (forall k, Object_fromEntries entries !! k = last_value k entries) /\
  (forall front k v back,
     entries = (front ++ (k, v) :: back)%list -> k ∉ back.*1 ->
     Object_fromEntries entries !! k = Some v) /\
  (forall w e entries' st,
     (forall k, k ∈ required -> last_value k entries = last_value k entries') ->
     onRequestPost w {| request := {| formData := inr entries |}; env := e |} st =
     onRequestPost w {| request := {| formData := inr entries' |}; env := e |} st).
Proof.
  split; [apply fromEntries_lookup |]. split.
  - intros front k v back -> Hk. rewrite fromEntries_lookup. by apply last_value_app.
  - intros w e entries' st H.
    unfold onRequestPost, try_catch.
    rewrite (try_parsed w {| request := {| formData := inr entries |}; env := e |}
               entries st eq_refl).
    rewrite (try_parsed w {| request := {| formData := inr entries' |}; env := e |}
               entries' st eq_refl).
    unfold passes_validation, deliver, apiPayload. cbn [env].
    rewrite !fromEntries_lookup.
    rewrite !(H "name"), !(H "email"), !(H "subject"), !(H "message");
      solve [reflexivity | unfold required; set_solver].
Qed.

Lemma last_value_wins_witness :
  Object_fromEntries (("name", Text "Ann") :: entries_of jane) !! "name"
    = Some (Text "Jane") /\
  onRequestPost (upstream 200 "OK" "queued")
    (post (("name", Text "Ann") :: entries_of jane)) quiet =
  onRequestPost (upstream 200 "OK" "queued") (post (entries_of jane)) quiet.
Proof.
  destruct (last_value_wins (("name", Text "Ann") :: entries_of jane))
    as (_ & Hlast & Hsame).
  split.
  - apply (Hlast [("name", Text "Ann")] "name" (Text "Jane")
             [("email", Text "jane@x.com"); ("subject", Text "Hello");
              ("message", Text ("Hi" +:+ LF +:+ "There"))]).
    + reflexivity.
    + vm_compute. intros H.
      repeat (inversion H as [| ? ? ? H']; clear H; rename H' into H).
  - apply (Hsame (upstream 200 "OK" "queued") site (entries_of jane) quiet).
    intros k Hk. unfold required in Hk. rewrite !elem_of_cons, elem_of_nil in Hk.
    destruct Hk as [-> | [-> | [-> | [-> | []]]]]; reflexivity.
Defined.

(** ** Payload *)

(** C3. For a valid submission, the payload has [to] equal to the one-element
    list of the configured recipient, [from] equal to the quoted name
    followed by the configured sender address in angle brackets, [replyTo]
    equal to the quoted name followed by the submitted address in angle
    brackets, and [subject] equal to [New Contact Form Submission: ] followed
    by the submitted subject; the call that goes out carries this payload. *)
Theorem payload_addressing w ctx entries s st :
  formData (request ctx) = inr entries ->
  submitted (Object_fromEntries entries) s ->
  filled s ->
  exists p,
    apiPayload (Object_fromEntries entries) (env ctx) st = (inr p, st) /\
    to p = [TO_EMAIL (env ctx)] /\
    from p = DQ +:+ Submission.name s +:+ DQ +:+ " <" +:+
             FORWARDEMAIL_USERNAME (env ctx) +:+ ">" /\
    replyTo p = DQ +:+ Submission.name s +:+ DQ +:+ " <" +:+
                Submission.email s +:+ ">" /\
    subject p = "New Contact Form Submission: " +:+ Submission.subject s /\
    outbound (effects_of (onRequestPost w ctx st)) =
      (outbound st ++
       match btoa (credentials (env ctx)) with
       | inr auth => [apiRequest p auth]
       | inl _ => []
       end)%list /\
    forall auth, Request.body (apiRequest p auth) = JSON.stringify (payload_json p).
Proof.
  intros Hf Hs Hfill. eexists. split; [by apply apiPayload_submitted |].
  repeat split.
  apply (valid_calls _ _ _ _ _ Hf (submitted_valid _ _ Hs Hfill)).
  by apply apiPayload_submitted.
Qed.

Lemma payload_addressing_witness :
  exists p,
    apiPayload (Object_fromEntries (entries_of jane)) site quiet = (inr p, quiet) /\
    to p = ["coach@braz.coach"] /\
    from p = DQ +:+ "Jane" +:+ DQ +:+ " <forms@braz.coach>" /\
    replyTo p = DQ +:+ "Jane" +:+ DQ +:+ " <jane@x.com>" /\
    subject p = "New Contact Form Submission: Hello" /\
    outbound (effects_of
      (onRequestPost (upstream 200 "OK" "queued") (post (entries_of jane)) quiet))
      = [apiRequest p "Zm9ybXNAYnJhei5jb2FjaDpzM2NyZXQ="].
Proof.
  destruct (payload_addressing (upstream 200 "OK" "queued") (post (entries_of jane))
              (entries_of jane) jane quiet)
    as (p & Hp & Hto & Hfrom & Hreply & Hsubject & Hout & _).
  - reflexivity.
  - repeat split.
  - repeat split; discriminate.
  - exists p. repeat split; assumption.
Defined.

(** C9. For a valid submission, [name], [email] and [message] are put into
    the [html] value as they are, between the fixed pieces of the template;
    the only rewriting is that of [message], which goes character by
    character, turns a newline into [<br>] and keeps every other character,
    so that a message without newlines is unchanged. *)
Theorem fields_interpolated_verbatim ctx entries s st :
  formData (request ctx) = inr entries ->
  submitted (Object_fromEntries entries) s ->
  filled s ->
  exists p,
    apiPayload (Object_fromEntries entries) (env ctx) st = (inr p, st) /\
    html p =
      LF +:+
      "        <p>You have received a new message from your website contact form.</p>" +:+ LF +:+
      "        <hr>" +:+ LF +:+
      "        <p><b>Name:</b> " +:+ Submission.name s +:+ "</p>" +:+ LF +:+
      "        <p><b>Email:</b> " +:+ Submission.email s +:+ "</p>" +:+ LF +:+
      "        <hr>" +:+ LF +:+
      "        <p><b>Message:</b></p>" +:+ LF +:+
      "        <p>" +:+ replace_newlines (Submission.message s) +:+ "</p>" +:+ LF +:+
      "      " /\
    (forall a b, replace_newlines (a +:+ b) = replace_newlines a +:+ replace_newlines b) /\
    (forall c, c <> "010"%char ->
       replace_newlines (String c EmptyString) = String c EmptyString) /\
    replace_newlines LF = "<br>" /\
    (newlines (Submission.message s) = 0%nat ->
     replace_newlines (Submission.message s) = Submission.message s).
Proof.
  intros Hf Hs Hfill. eexists. split; [by apply apiPayload_submitted |].
  split; [reflexivity |]. split; [apply replace_newlines_app |].
  split; [| split; [reflexivity | apply replace_newlines_id]].
  intros c Hc. simpl. by destruct (Ascii.eqb_spec c "010").
Qed.

Lemma fields_interpolated_verbatim_witness :
  exists p,
    apiPayload (Object_fromEntries (entries_of marked_up)) site quiet = (inr p, quiet) /\
    html p =
      LF +:+
      "        <p>You have received a new message from your website contact form.</p>" +:+ LF +:+
      "        <hr>" +:+ LF +:+
      "        <p><b>Name:</b> <b>Jane</b></p>" +:+ LF +:+
      "        <p><b>Email:</b> jane@x.com</p>" +:+ LF +:+
      "        <hr>" +:+ LF +:+
      "        <p><b>Message:</b></p>" +:+ LF +:+
      "        <p>one<br>two</p>" +:+ LF +:+
      "      ".
Proof.
  destruct (fields_interpolated_verbatim (post (entries_of marked_up))
              (entries_of marked_up) marked_up quiet)
    as (p & Hp & Hhtml & _ & _ & _ & Hid).
  - reflexivity.
  - repeat split.
  - repeat split; discriminate.
  - exists p. split; [exact Hp |]. rewrite Hhtml, Hid; reflexivity.
Defined.

(** C4 as stated fails for a message that already contains [<br>]: without
    any newline in the message, the rendered HTML has one marker. *)
Lemma marker_already_in_message :
  filled marked_up /\
  submitted (Object_fromEntries (entries_of marked_up)) marked_up /\
  exists p,
    apiPayload (Object_fromEntries (entries_of marked_up)) site quiet = (inr p, quiet) /\
    newlines (Submission.message marked_up) = 0%nat /\
    markers (html p) = 1%nat /\
    markers (html p) <> newlines (Submission.message marked_up).
Proof.
  split; [repeat split; discriminate |]. split; [repeat split |].
  eexists. split; [reflexivity |]. split; [reflexivity |]. split; [reflexivity |].
  vm_compute. discriminate.
Qed.

(** C4, as the code has it. For a valid submission, every newline of
    [message] becomes [<br>] and none is left in the rendered message; the
    rendered HTML contains as many [<br>] as the message has newlines plus
    those that [name], [email] and [message] already contain. In particular,
    when none of the three contains [<br>], a message with N newlines yields
    exactly N markers. *)
Theorem markers_count ctx entries s st :
  formData (request ctx) = inr entries ->
  submitted (Object_fromEntries entries) s ->
  filled s ->
  exists p,
    apiPayload (Object_fromEntries entries) (env ctx) st = (inr p, st) /\
    newlines (replace_newlines (Submission.message s)) = 0%nat /\
    markers (replace_newlines (Submission.message s))
      = (newlines (Submission.message s) + markers (Submission.message s))%nat /\
    markers (html p)
      = (newlines (Submission.message s) + markers (Submission.name s) +
         markers (Submission.email s) + markers (Submission.message s))%nat /\
    (markers (Submission.name s) = 0%nat ->
     markers (Submission.email s) = 0%nat ->
     markers (Submission.message s) = 0%nat ->
     markers (html p) = newlines (Submission.message s)).
Proof.
  intros Hf Hs Hfill. eexists. split; [by apply apiPayload_submitted |].
  cbn [html]. rewrite markers_html, markers_replace.
  split; [apply replace_newlines_clean |]. split; [done |]. split; lia.
Qed.

Lemma markers_count_witness :
  exists p,
    apiPayload (Object_fromEntries (entries_of jane)) site quiet = (inr p, quiet) /\
    newlines (Submission.message jane) = 1%nat /\
    markers (html p) = 1%nat.
Proof.
  destruct (markers_count (post (entries_of jane)) (entries_of jane) jane quiet)
    as (p & Hp & _ & _ & _ & Hcount).
  - reflexivity.
  - repeat split.
  - repeat split; discriminate.
  - exists p. split; [exact Hp |]. split; [reflexivity |].
    rewrite Hcount; reflexivity.
Defined.

(** ** What the caller can learn *)

(** C8. Any two invocations that reach the delivery-failure return give the
    same response, status and body, whatever the upstream status code,
    status text and body were; and for one request, two networks that differ
    only in such detail (status codes of the same class, status text,
    response body, the error raised) give the same response; the body of
    every response is one of four fixed texts, so none of the detail reaches
    the caller. *)
Theorem upstream_detail_hidden w1 w2 ctx1 ctx2 st1 st2 :
  (delivery_failure_path w1 ctx1 ->
   delivery_failure_path w2 ctx2 ->
   response_of (onRequestPost w1 ctx1 st1) = response_of (onRequestPost w2 ctx2 st2) /\
   response_of (onRequestPost w1 ctx1 st1) = inr delivery_failure) /\
  (ctx1 = ctx2 ->
   same_verdicts w1 w2 ->
   response_of (onRequestPost w1 ctx1 st1) = response_of (onRequestPost w2 ctx2 st2)) /\
  (exists r,
     response_of (onRequestPost w1 ctx1 st1) = inr r /\
     Response.body r ∈ [failure_body "Missing required fields.";
                        failure_body "Failed to send email.";
                        failure_body "An unexpected error occurred.";
                        "OK"]).
Proof.
  split; [| split].
  - intros H1 H2. by rewrite !delivery_failure_path_run.
  - intros <- Hw. by apply handler_same_verdicts.
  - destruct (handler_outcome w1 ctx1 st1) as (r & st' & -> & Hr & _).
    exists r. split; [done |].
    rewrite !elem_of_cons, elem_of_nil in Hr.
    destruct Hr as [-> | [-> | [-> | [-> | []]]]]; set_solver.
Qed.

Lemma upstream_detail_hidden_witness :
  response_of
    (onRequestPost (upstream 401 "Unauthorized" "Invalid credentials")
       (post (entries_of jane)) quiet) =
  response_of
    (onRequestPost (upstream 503 "Service Unavailable" "<html>upstream stack</html>")
       (post (entries_of marked_up)) quiet) /\
  response_of
    (onRequestPost (upstream 401 "Unauthorized" "Invalid credentials")
       (post (entries_of jane)) quiet) =
  response_of
    (onRequestPost (upstream 429 "Too Many Requests" "slow down")
       (post (entries_of jane)) quiet).
Proof.
  split.
  - destruct (upstream_detail_hidden
                (upstream 401 "Unauthorized" "Invalid credentials")
                (upstream 503 "Service Unavailable" "<html>upstream stack</html>")
                (post (entries_of jane)) (post (entries_of marked_up)) quiet quiet)
      as [Hpath _].
    destruct Hpath as [Hsame _]; [| | exact Hsame].
    + unfold delivery_failure_path. do 5 eexists. split; [reflexivity |].
      split; [apply valid_passes; vm_compute; reflexivity |].
      split; [reflexivity |]. split; [vm_compute; reflexivity |].
      split; [reflexivity |]. split; reflexivity.
    + unfold delivery_failure_path. do 5 eexists. split; [reflexivity |].
      split; [apply valid_passes; vm_compute; reflexivity |].
      split; [reflexivity |]. split; [vm_compute; reflexivity |].
      split; [reflexivity |]. split; reflexivity.
  - destruct (upstream_detail_hidden
                (upstream 401 "Unauthorized" "Invalid credentials")
                (upstream 429 "Too Many Requests" "slow down")
                (post (entries_of jane)) (post (entries_of jane)) quiet quiet)
      as (_ & Hdetail & _).
    apply Hdetail.
    + reflexivity.
    + intros rq. reflexivity.
Defined.

(** ** The paths of the handler *)

Lemma handler_outcomes w ctx st :
  exists r st', onRequestPost w ctx st = (inr r, st') /\ outcome w ctx st r st'.
Proof.
  rewrite handler_of_try.
  destruct (formData (request ctx)) as [e | entries] eqn:Hf.
  { rewrite (try_parse_error _ _ _ _ Hf), catch_run.
    eexists _, _. split; [done |]. by apply outcome_unparsed. }
  rewrite (try_parsed _ _ _ _ Hf).
  destruct (passes_validation _) eqn:Hv.
  2: { eexists _, _. split; [done |]. by eapply outcome_invalid. }
  destruct (deliver_delivery w (env ctx) (Object_fromEntries entries) st)
    as [err Hp | p err Hp Ha | p auth err Hp Ha Hw | p auth r Hp Ha Hw Hok
        | p auth r err Hp Ha Hw Hok Ht | p auth r b Hp Ha Hw Hok Ht];
    rewrite ?catch_run; eexists _, _; (split; [done |]);
    rewrite apiPayload_run in Hp; injection Hp as Hp.
  - eapply outcome_no_payload; [done | done |].
    revert Hp. unfold apiPayload, response_of, mbind, M_bind, settle, mret, M_ret.
    destruct (replace_method _); [intros [= ->]; reflexivity | discriminate].
  - by eapply outcome_no_auth.
  - by eapply outcome_transport.
  - by eapply outcome_accepted.
  - by eapply outcome_unreadable.
  - by eapply outcome_refused.
Qed.

Lemma run_outcome w ctx st r st' :
  onRequestPost w ctx st = (inr r, st') -> outcome w ctx st r st'.
Proof.
  intros Hrun. destruct (handler_outcomes w ctx st) as (r0 & st0 & Hrun0 & Ho).
  rewrite Hrun in Hrun0. by injection Hrun0 as -> ->.
Qed.

Lemma responses_distinct :
  validation_failure <> delivery_failure /\ validation_failure <> unexpected_failure /\
  validation_failure <> success /\ delivery_failure <> unexpected_failure /\
  delivery_failure <> success /\ unexpected_failure <> success.
Proof. repeat split; intros H; vm_compute in H; discriminate. Qed.

Ltac clash :=
  match goal with
  | H : ?a = ?b |- _ =>
      first [ is_var a; fail 1 | is_var b; fail 1
            | exfalso; vm_compute in H; discriminate H ]
  end.

Lemma truthy_false_absent v : truthy v = false -> absent v.
Proof.
  destruct v as [[[| c s] | f] |]; simpl; try discriminate; intros _; [by right | by left].
Qed.

Lemma fails_absent body :
  passes_validation body = false -> exists k, k ∈ required /\ absent (body !! k).
Proof.
  unfold passes_validation, required. rewrite !andb_false_iff.
  intros [[[H | H] | H] | H]; apply truthy_false_absent in H;
    eexists; (split; [| exact H]); set_solver.
Qed.

(** ** The outbound call *)

(** X1. An invocation calls the delivery API at most once, and only for a
    submission that passed validation. The call is a POST to the send-email
    endpoint with the header [Authorization: Basic] followed by the base64
    of [username:password], the header [Content-Type: application/json], and
    the serialized payload as body. *)
Theorem single_authenticated_call w ctx st :
  exists calls,
    outbound (effects_of (onRequestPost w ctx st)) = (outbound st ++ calls)%list /\
    (calls = [] \/
     exists entries p auth,
       formData (request ctx) = inr entries /\
       valid_submission (Object_fromEntries entries) /\
       response_of (apiPayload (Object_fromEntries entries) (env ctx) quiet) = inr p /\
       btoa (FORWARDEMAIL_USERNAME (env ctx) +:+ ":" +:+
             FORWARDEMAIL_PASSWORD (env ctx)) = inr auth /\
       calls =
         [{| Request.url := "https://api.forwardemail.net/v1/emails";
             Request.method := "POST";
             Request.headers := [("Authorization", "Basic " +:+ auth);
                                 ("Content-Type", "application/json")];
             Request.body := JSON.stringify (payload_json p) |}]).
Proof.
  destruct (handler_outcomes w ctx st) as (r & st' & -> & Ho).
  unfold effects_of. cbn [snd].
  destruct Ho as [e Hf | entries Hf Hv | entries e Hf Hv Hm | entries p e Hf Hv Hp Ha
                 | entries p auth e Hf Hv Hp Ha Hw | entries p auth up Hf Hv Hp Ha Hw Hok
                 | entries p auth up e Hf Hv Hp Ha Hw Hok Ht
                 | entries p auth up b Hf Hv Hp Ha Hw Hok Ht];
    cbn [logged sent outbound].
  1-4: exists []; split; [by rewrite app_nil_r | by left].
  all: eexists; split; [reflexivity |]; right;
    exists entries, p, auth; apply valid_passes in Hv; done.
Qed.

(** ** Logging *)

(** X2. The handler writes to the console on failure paths only, and what it
    writes is what it was given. A run that returns [OK] or the validation
    failure logs nothing. A run that returns the delivery failure logs
    exactly two lines: the status and status text of the answer the network
    gave to the request sent, then the body of that answer. A run that
    returns the unexpected-error response logs the error that was raised
    (by [formData], by [replace], by [btoa] or by [fetch]) as its only line,
    or, when reading the body of a refused call raised, the status line of
    that answer followed by the error. *)
Theorem logging_only_on_failure w ctx st r st' :
  onRequestPost w ctx st = (inr r, st') ->
  (r = success \/ r = validation_failure -> console st' = console st) /\
  (r = delivery_failure ->
   exists rq up errorBody,
     outbound st' = (outbound st ++ [rq])%list /\
     w rq = inr up /\
     Upstream.text up = inr errorBody /\
     console st' =
       (console st ++
        [[LogStr ("forwardemail.net API Error: " +:+
                  NilZero.string_of_uint (N.to_uint (Upstream.status up)) +:+
                  " " +:+ Upstream.statusText up)];
         [LogStr ("forwardemail.net Response Body: " +:+ errorBody)]])%list) /\
  (r = unexpected_failure ->
   exists e,
     (console st' = (console st ++ [[LogStr "Worker Error:"; LogErr e]])%list /\
      (formData (request ctx) = inl e \/
       (exists entries,
          formData (request ctx) = inr entries /\
          (replace_method (Object_fromEntries entries !! "message") = inl e \/
           (exists message,
              replace_method (Object_fromEntries entries !! "message") = inr message /\
              btoa (FORWARDEMAIL_USERNAME (env ctx) +:+ ":" +:+
                    FORWARDEMAIL_PASSWORD (env ctx)) = inl e))) \/
       (exists rq, outbound st' = (outbound st ++ [rq])%list /\ w rq = inl e))) \/
     (exists rq up,
        outbound st' = (outbound st ++ [rq])%list /\
        w rq = inr up /\
        Upstream.text up = inl e /\
        console st' =
          (console st ++
           [[LogStr ("forwardemail.net API Error: " +:+
                     NilZero.string_of_uint (N.to_uint (Upstream.status up)) +:+
                     " " +:+ Upstream.statusText up)];
            [LogStr "Worker Error:"; LogErr e]])%list)).
Proof.
  intros Hrun. apply run_outcome in Hrun.
  destruct Hrun as [e Hf | entries Hf Hv | entries e Hf Hv Hm | entries p e Hf Hv Hp Ha
                   | entries p auth e Hf Hv Hp Ha Hw | entries p auth up Hf Hv Hp Ha Hw Hok
                   | entries p auth up e Hf Hv Hp Ha Hw Hok Ht
                   | entries p auth up b Hf Hv Hp Ha Hw Hok Ht];
    cbn [logged sent console outbound];
    (split; [intros [H | H]; first [reflexivity | clash] |]);
    (split; [intros H; try clash | intros H; try clash]).
  - exists e. left. split; [done |]. by left.
  - exists e. left. split; [done |]. right. left. exists entries. split; [done |]. by left.
  - exists e. left. split; [done |]. right. left. exists entries. split; [done |].
    right. revert Hp. unfold apiPayload, response_of, mbind, M_bind, settle, mret, M_ret.
    destruct (replace_method _) as [e0 | m]; [discriminate |]. intros _.
    exists m. done.
  - exists e. left. split; [done |]. right. right. by exists (apiRequest p auth).
  - exists e. right. exists (apiRequest p auth), up. rewrite <- app_assoc. done.
  - exists (apiRequest p auth), up, b. rewrite <- app_assoc. done.
Qed.

Lemma logging_only_on_failure_witness :
  (exists rq up errorBody,
     outbound
       (effects_of
          (onRequestPost (upstream 401 "Unauthorized" "Invalid credentials")
             (post (entries_of jane)) quiet)) = (outbound quiet ++ [rq])%list /\
     upstream 401 "Unauthorized" "Invalid credentials" rq = inr up /\
     Upstream.text up = inr errorBody /\
     console
       (effects_of
          (onRequestPost (upstream 401 "Unauthorized" "Invalid credentials")
             (post (entries_of jane)) quiet))
     = (console quiet ++
        [[LogStr ("forwardemail.net API Error: " +:+
                  NilZero.string_of_uint (N.to_uint (Upstream.status up)) +:+
                  " " +:+ Upstream.statusText up)];
         [LogStr ("forwardemail.net Response Body: " +:+ errorBody)]])%list) /\
  console
    (effects_of
       (onRequestPost (upstream 200 "OK" "queued") (post (entries_of jane)) quiet))
  = console quiet.
Proof.
  split.
  - destruct (logging_only_on_failure
                (upstream 401 "Unauthorized" "Invalid credentials")
                (post (entries_of jane)) quiet delivery_failure
                (effects_of
                   (onRequestPost (upstream 401 "Unauthorized" "Invalid credentials")
                      (post (entries_of jane)) quiet)))
      as (_ & Hrefused & _).
    + vm_compute. reflexivity.
    + apply Hrefused. reflexivity.
  - destruct (logging_only_on_failure (upstream 200 "OK" "queued")
                (post (entries_of jane)) quiet success
                (effects_of
                   (onRequestPost (upstream 200 "OK" "queued")
                      (post (entries_of jane)) quiet)))
      as (Hquiet & _).
    + vm_compute. reflexivity.
    + apply Hquiet. by left.
Defined.

(** ** What each response tells the caller *)

(** X3. Once the body has been parsed, the handler answers with the
    validation failure exactly when one of the four fields is missing or
    empty: a field of blanks, or a file, is accepted. *)
Theorem validation_failure_iff w ctx entries st :
  formData (request ctx) = inr entries ->
  response_of (onRequestPost w ctx st) = inr validation_failure <->
  exists k, k ∈ required /\ absent (Object_fromEntries entries !! k).
Proof.
  intros Hf. split.
  - destruct (handler_outcomes w ctx st) as (r & st' & -> & Ho).
    unfold response_of. cbn [fst]. intros [= ->].
    inversion Ho as [e Hf' | entries' Hf' Hv | | | | | |]; try clash.
    rewrite Hf in Hf'. injection Hf' as <-. by apply fails_absent.
  - intros (k & Hk & Ha).
    rewrite handler_of_try, (try_parsed _ _ _ _ Hf), (absent_fails _ _ Hk Ha). done.
Qed.

Lemma validation_failure_iff_witness :
  response_of (onRequestPost offline (post no_email_entries) quiet)
    = inr validation_failure.
Proof.
  apply (validation_failure_iff offline (post no_email_entries) no_email_entries quiet).
  - reflexivity.
  - exists "email". split.
    + unfold required. apply list_elem_of_further, list_elem_of_here.
    + left. vm_compute. reflexivity.
Defined.

(** X4. The handler answers [OK] only when the call went out and the
    delivery API answered it with a status in 200..299. *)
Theorem success_only_if_accepted w ctx st :
  response_of (onRequestPost w ctx st) = inr success ->
  exists rq up,
    outbound (effects_of (onRequestPost w ctx st)) = (outbound st ++ [rq])%list /\
    w rq = inr up /\
    200 <= Upstream.status up <= 299.
Proof.
  destruct (handler_outcomes w ctx st) as (r & st' & -> & Ho).
  unfold response_of, effects_of. cbn [fst snd]. intros [= ->].
  inversion Ho as [| | | | | entries p auth up Hf Hv Hp Ha Hw Hok Hr | |]; try clash.
  exists (apiRequest p auth), up. split; [done |]. split; [done |].
  unfold Upstream.ok in Hok. apply andb_true_iff in Hok as [H1 H2].
  apply N.leb_le in H1, H2. done.
Qed.

Lemma success_only_if_accepted_witness :
  exists rq up,
    outbound (effects_of
      (onRequestPost (upstream 204 "No Content" "") (post (entries_of jane)) quiet))
      = [rq] /\
    upstream 204 "No Content" "" rq = inr up /\
    200 <= Upstream.status up <= 299.
Proof.
  apply (success_only_if_accepted (upstream 204 "No Content" "")
           (post (entries_of jane)) quiet).
  vm_compute. reflexivity.
Defined.

(** X5. The handler answers with the delivery failure only when the call
    went out and the delivery API answered it with a status outside
    200..299 (and the body of that answer could be read). *)
Theorem delivery_failure_only_if_refused w ctx st :
  response_of (onRequestPost w ctx st) = inr delivery_failure ->
  exists rq up errorBody,
    outbound (effects_of (onRequestPost w ctx st)) = (outbound st ++ [rq])%list /\
    w rq = inr up /\
    (Upstream.status up < 200 \/ 299 < Upstream.status up) /\
    Upstream.text up = inr errorBody.
Proof.
  destruct (handler_outcomes w ctx st) as (r & st' & -> & Ho).
  unfold response_of, effects_of. cbn [fst snd]. intros [= ->].
  inversion Ho as [| | | | | | | entries p auth up b Hf Hv Hp Ha Hw Hok Ht Hr];
    try clash.
  exists (apiRequest p auth), up, b. split; [done |]. split; [done |]. split; [| done].
  unfold Upstream.ok in Hok. apply andb_false_iff in Hok as [H | H];
    apply N.leb_gt in H; [by left | by right].
Qed.

Lemma delivery_failure_only_if_refused_witness :
  exists rq up errorBody,
    outbound (effects_of
      (onRequestPost (upstream 401 "Unauthorized" "Invalid credentials")
         (post (entries_of jane)) quiet)) = [rq] /\
    upstream 401 "Unauthorized" "Invalid credentials" rq = inr up /\
    (Upstream.status up < 200 \/ 299 < Upstream.status up) /\
    Upstream.text up = inr errorBody.
Proof.
  apply (delivery_failure_only_if_refused
           (upstream 401 "Unauthorized" "Invalid credentials")
           (post (entries_of jane)) quiet).
  vm_compute. reflexivity.
Defined.

(** ** Which entries matter *)

Lemma handler_last_values w e entries entries' st :
  (forall k, k ∈ required -> last_value k entries = last_value k entries') ->
  onRequestPost w {| request := {| formData := inr entries |}; env := e |} st =
  onRequestPost w {| request := {| formData := inr entries' |}; env := e |} st.
Proof.
  intros H. unfold onRequestPost, try_catch.
  rewrite (try_parsed w {| request := {| formData := inr entries |}; env := e |}
             entries st eq_refl).
  rewrite (try_parsed w {| request := {| formData := inr entries' |}; env := e |}
             entries' st eq_refl).
  unfold passes_validation, deliver, apiPayload. cbn [env].
  rewrite !fromEntries_lookup.
  rewrite !(H "name"), !(H "email"), !(H "subject"), !(H "message");
    solve [reflexivity | unfold required; set_solver].
Qed.

Lemma last_value_required_only k entries :
  k ∈ required ->
  last_value k (filter (fun kv => kv.1 ∈ required) entries) = last_value k entries.
Proof.
  intros Hk.
  induction entries as [| [k' v] rest IH]; [done |].
  rewrite filter_cons. cbn [fst last_value]. destruct (decide (k' ∈ required)) as [Hin | Hout].
  - cbn [last_value]. by rewrite IH.
  - rewrite IH. destruct (last_value k rest); [done |].
    destruct (String.eqb_spec k' k) as [-> | _]; [done | done].
Qed.

Lemma last_value_keys k v entries : last_value k entries = Some v -> (k, v) ∈ entries.
Proof.
  induction entries as [| [k' v'] rest IH]; [done |]. cbn [last_value].
  destruct (last_value k rest) as [x |].
  - intros [= ->]. apply list_elem_of_further. by apply IH.
  - destruct (String.eqb_spec k' k) as [-> | _]; [| done].
    intros [= ->]. apply list_elem_of_here.
Qed.

Lemma last_value_NoDup k v entries :
  NoDup entries.*1 -> (k, v) ∈ entries -> last_value k entries = Some v.
Proof.
  induction entries as [| [k' v'] rest IH]; intros Hnd Hin.
  { by apply elem_of_nil in Hin. }
  rewrite fmap_cons in Hnd. apply NoDup_cons in Hnd as [Hfresh Hnd].
  apply elem_of_cons in Hin as [[= -> ->] | Hin]; cbn [last_value].
  - destruct (last_value k' rest) as [x |] eqn:Hx.
    + destruct Hfresh. apply last_value_keys in Hx.
      apply list_elem_of_fmap. by exists (k', x).
    + by rewrite String.eqb_refl.
  - by rewrite (IH Hnd Hin).
Qed.

Lemma last_value_Permutation k entries entries' :
  NoDup entries.*1 -> entries ≡ₚ entries' ->
  last_value k entries = last_value k entries'.
Proof.
  intros Hnd Hperm.
  assert (NoDup entries'.*1) as Hnd' by by rewrite <- Hperm.
  destruct (last_value k entries) as [v |] eqn:H1.
  - symmetry. apply last_value_NoDup; [done |].
    rewrite <- Hperm. by apply last_value_keys.
  - destruct (last_value k entries') as [v |] eqn:H2; [| done].
    apply last_value_keys in H2. rewrite <- Hperm in H2.
    apply (last_value_NoDup _ _ _ Hnd) in H2. congruence.
Qed.

(** X6. Form fields other than [name], [email], [subject] and [message] are
    ignored: dropping them from the body changes neither the response nor
    the effects of the invocation. *)
Theorem other_fields_ignored w e entries st :
  onRequestPost w {| request := {| formData := inr entries |}; env := e |} st =
  onRequestPost w
    {| request := {| formData := inr (filter (fun kv => kv.1 ∈ required) entries) |};
       env := e |} st.
Proof.
  apply handler_last_values. intros k Hk. symmetry.
  by apply last_value_required_only.
Qed.

(** X7. When no field name repeats, the order of the fields in the body does
    not matter: a permutation of the entries gives the same response and the
    same effects. *)
Theorem field_order_irrelevant w e entries entries' st :
  NoDup entries.*1 ->
  entries ≡ₚ entries' ->
  onRequestPost w {| request := {| formData := inr entries |}; env := e |} st =
  onRequestPost w {| request := {| formData := inr entries' |}; env := e |} st.
Proof.
  intros Hnd Hperm. apply handler_last_values. intros k _.
  by apply last_value_Permutation.
Qed.

Lemma field_order_irrelevant_witness :
  onRequestPost (upstream 200 "OK" "queued") (post (entries_of jane)) quiet =
  onRequestPost (upstream 200 "OK" "queued") (post (reverse (entries_of jane))) quiet.
Proof.
  apply (field_order_irrelevant (upstream 200 "OK" "queued") site
           (entries_of jane) (reverse (entries_of jane)) quiet).
  - vm_compute. repeat constructor; intros H;
      repeat (inversion H as [| ? ? ? H']; clear H; rename H' into H).
  - symmetry. apply reverse_Permutation.
Defined.

(** ** Errors before the call *)

(** X8. A file in the [message] field passes validation, but the payload
    cannot be built from it: the handler makes no call, logs the TypeError
    and answers with the unexpected-error response. *)
Theorem file_message_is_unexpected w ctx entries filename st :
  formData (request ctx) = inr entries ->
  valid_submission (Object_fromEntries entries) ->
  Object_fromEntries entries !! "message" = Some (File filename) ->
  exists msg,
    onRequestPost w ctx st =
      (inr unexpected_failure,
       {| console := console st ++ [[LogStr "Worker Error:"; LogErr (TypeError msg)]];
          outbound := outbound st |}).
Proof.
  intros Hf Hv Hm. apply valid_passes in Hv.
  rewrite handler_of_try, (try_parsed _ _ _ _ Hf), Hv.
  unfold deliver, apiPayload, mbind, M_bind, settle. rewrite Hm. cbn [replace_method].
  eexists. reflexivity.
Qed.

Lemma file_message_is_unexpected_witness :
  exists msg,
    onRequestPost (upstream 200 "OK" "queued") (post attachment_entries) quiet =
      (inr unexpected_failure,
       {| console := console quiet ++ [[LogStr "Worker Error:"; LogErr (TypeError msg)]];
          outbound := outbound quiet |}).
Proof.
  apply (file_message_is_unexpected (upstream 200 "OK" "queued")
           (post attachment_entries) attachment_entries "notes.txt" quiet).
  - reflexivity.
  - apply valid_passes. vm_compute. reflexivity.
  - vm_compute. reflexivity.
Defined.

(** X9. When [btoa] rejects the credentials (a character above U+00FF in the
    username or the password), a valid submission is not sent: no call goes
    out and the handler answers with the unexpected-error response. *)
Theorem unencodable_credentials_block_delivery w ctx entries err st :
  formData (request ctx) = inr entries ->
  valid_submission (Object_fromEntries entries) ->
  btoa (FORWARDEMAIL_USERNAME (env ctx) +:+ ":" +:+ FORWARDEMAIL_PASSWORD (env ctx))
    = inl err ->
  response_of (onRequestPost w ctx st) = inr unexpected_failure /\
  outbound (effects_of (onRequestPost w ctx st)) = outbound st.
Proof.
  intros Hf Hv Hb. apply valid_passes in Hv.
  destruct (handler_outcomes w ctx st) as (r & st' & -> & Ho).
  unfold response_of, effects_of. cbn [fst snd].
  destruct Ho as [e Hf' | entries' Hf' Hv' | entries' e Hf' Hv' Hm
                 | entries' p e Hf' Hv' Hp Ha
                 | entries' p auth e Hf' Hv' Hp Ha Hw
                 | entries' p auth up Hf' Hv' Hp Ha Hw Hok
                 | entries' p auth up e Hf' Hv' Hp Ha Hw Hok Ht
                 | entries' p auth up b Hf' Hv' Hp Ha Hw Hok Ht];
    try done; unfold credentials in *; congruence.
Qed.

Lemma unencodable_credentials_block_delivery_witness :
  response_of
    (onRequestPost (upstream 200 "OK" "queued")
       {| request := {| formData := inr (entries_of jane) |}; env := euro_site |} quiet)
    = inr unexpected_failure /\
  outbound
    (effects_of
       (onRequestPost (upstream 200 "OK" "queued")
          {| request := {| formData := inr (entries_of jane) |}; env := euro_site |}
          quiet)) = outbound quiet.
Proof.
  apply (unencodable_credentials_block_delivery (upstream 200 "OK" "queued")
           {| request := {| formData := inr (entries_of jane) |}; env := euro_site |}
           (entries_of jane) InvalidCharacterError quiet).
  - reflexivity.
  - apply valid_passes. vm_compute. reflexivity.
  - vm_compute. reflexivity.
Defined.

(** ** Credentials that can be encoded *)

Lemma ascii_only_app a b : ascii_only (a +:+ b) = ascii_only a && ascii_only b.
Proof.
  induction a as [| c a IH]; [done |].
  change (String c a +:+ b) with (String c (a +:+ b)). cbn [ascii_only].
  by rewrite IH, andb_assoc.
Qed.

Lemma latin1_ascii s : ascii_only s = true -> is_Some (latin1 s).
Proof.
  induction s as [| c s IH]; [by eexists |]. cbn [ascii_only latin1].
  intros [Hc Hs]%andb_true_iff. rewrite Hc.
  destruct (IH Hs) as [bytes ->]. by eexists.
Qed.

Lemma btoa_ascii s : ascii_only s = true -> exists auth, btoa s = inr auth.
Proof.
  intros H. unfold btoa. destruct (latin1_ascii s H) as [bytes ->]. by eexists.
Qed.

(** X10. With a username and a password made of ASCII characters, every
    valid text submission is sent: exactly one call goes out, and the
    response is [OK] when the answer has a status in 200..299, the delivery
    failure when it has another status and a readable body, and the
    unexpected-error response when the call or the reading of the body
    raises. *)
Theorem ascii_credentials_always_send w ctx entries s st :
  formData (request ctx) = inr entries ->
  submitted (Object_fromEntries entries) s ->
  filled s ->
  ascii_only (FORWARDEMAIL_USERNAME (env ctx)) = true ->
  ascii_only (FORWARDEMAIL_PASSWORD (env ctx)) = true ->
  exists rq,
    outbound (effects_of (onRequestPost w ctx st)) = (outbound st ++ [rq])%list /\
    response_of (onRequestPost w ctx st) =
      inr match w rq with
          | inl _ => unexpected_failure
          | inr up =>
              if (200 <=? Upstream.status up) && (Upstream.status up <=? 299)
              then success
              else match Upstream.text up with
                   | inl _ => unexpected_failure
                   | inr _ => delivery_failure
                   end
          end.
Proof.
  intros Hf Hs Hfill Hu Hp.
  pose proof (submitted_valid _ _ Hs Hfill) as Hv.
  destruct (btoa_ascii (credentials (env ctx))) as [auth Ha].
  { unfold credentials. rewrite !ascii_only_app, Hu, Hp. reflexivity. }
  pose proof (valid_calls w ctx entries _ st Hf Hv
                (apiPayload_submitted _ (env ctx) s st Hs)) as Hout.
  rewrite Ha in Hout. eexists. split; [exact Hout |].
  rewrite (handler_after_call _ _ _ _ _ Hf Hv Hout).
  unfold response_to, verdict, Upstream.ok.
  destruct (w _) as [e | up]; [done |].
  destruct (_ && _); [done |]. by destruct (Upstream.text up).
Qed.

Lemma ascii_credentials_always_send_witness :
  exists rq,
    outbound (effects_of
      (onRequestPost (upstream 500 "Internal Server Error" "oops")
         (post (entries_of jane)) quiet)) = (outbound quiet ++ [rq])%list /\
    response_of
      (onRequestPost (upstream 500 "Internal Server Error" "oops")
         (post (entries_of jane)) quiet) = inr delivery_failure.
Proof.
  destruct (ascii_credentials_always_send (upstream 500 "Internal Server Error" "oops")
              (post (entries_of jane)) (entries_of jane) jane quiet)
    as (rq & Hout & Hresp).
  - reflexivity.
  - repeat split.
  - repeat split; discriminate.
  - reflexivity.
  - reflexivity.
  - exists rq. split; [exact Hout | exact Hresp].
Defined.

(** ** Newline replacement *)

(** X11. Replacing the newlines leaves none behind, so doing it twice is the
    same as doing it once; each replaced newline makes the text three
    characters longer. *)
Theorem replace_newlines_idempotent s :
  replace_newlines (replace_newlines s) = replace_newlines s /\
  String.length (replace_newlines s)
    = (String.length s + 3 * newlines s)%nat.
Proof.
  split.
  - apply replace_newlines_id, replace_newlines_clean.
  - induction s as [| c s IH]; [done |]. cbn [replace_newlines newlines].
    destruct (Ascii.eqb c "010"); cbn; rewrite IH; lia.
Qed.

(** ** Independence of earlier invocations *)

(** X12. An invocation reads nothing of what earlier invocations left: from
    any earlier console and list of calls, it returns the response it would
    return from none, and appends to them the lines and the call it would
    have produced from none. *)
Theorem invocation_independent_of_history w ctx st :
  onRequestPost w ctx st =
    (response_of (onRequestPost w ctx quiet),
     {| console := console st ++ console (effects_of (onRequestPost w ctx quiet));
        outbound := outbound st ++ outbound (effects_of (onRequestPost w ctx quiet)) |}).
Proof.
  destruct st as [c o].
  unfold onRequestPost, try_catch, onRequestPost_try, onRequestPost_catch, apiPayload,
    response_of, effects_of, mbind, M_bind, settle, fetch, console_error, mret, M_ret,
    logged, sent, quiet.
  cbn [console outbound].
  destruct (formData (request ctx)) as [e | entries]; cbn [fst snd console outbound].
  { by rewrite app_nil_r. }
  cbv zeta.
  destruct (_ || _); cbn [fst snd console outbound].
  { by rewrite !app_nil_r. }
  destruct (replace_method _) as [e | m]; cbn [fst snd console outbound].
  { by rewrite app_nil_r. }
  destruct (btoa _) as [e | auth]; cbn [fst snd console outbound].
  { by rewrite app_nil_r. }
  destruct (w _) as [e | up]; cbn [fst snd console outbound app].
  { done. }
  destruct (Upstream.ok up); cbn [negb fst snd console outbound app].
  { by rewrite app_nil_r. }
  destruct (Upstream.text up) as [e | b]; cbn [fst snd console outbound app];
    by rewrite <- !app_assoc.
Qed.

(** ** What goes on the wire *)










